(** * Streaming-session controller of the forge UI (src/ui/src/App.tsx)

    A shallow embedding of the React component [App]: the message
    handlers of the generation stream ([query]) and of the fix stream
    ([getFix]), the state updater they both pass to [setMessages], the
    transaction effect ([handleTransaction]) and the retrying event
    source hook ([useEventSourceWithRetry]).

    React state is modelled as an explicit record [Ctrl]; every handler
    is a function from the current state to the next one.  A handler that
    throws in JavaScript (a [TypeError] on a missing entry, a failing
    [JSON.parse]) returns [None]. *)

From Stdlib Require Import String Ascii List Arith ZArith Bool Lia.
Import ListNotations.
Open Scope string_scope.

(** ** Data model *)

(** [interface Message] (lines 16-22).  [timestamp] is the clock reading
    of [new Date()]; the optional [sessionId] is never set by the code. *)
Inductive Role := User | Ai.

Record Message := mkMessage {
  role : Role;
  title : string;
  content : string;
  timestamp : nat
}.

(** [interface ForgeResponse] (lines 49-52): the decoded stream event. *)
Record ForgeResponse := mkForgeResponse {
  ftitle : string;
  foutput : string
}.

(** [interface TransactionDetails] (lines 36-42). *)
Record TransactionDetails := mkTransactionDetails {
  to : string;
  function : string;
  arguments : list string;
  value : string;
  input_data : string
}.

(** The component state used by the handlers: [messages],
    [transactions], [txCount] and [tempDir] (lines 92-100), and whether
    the current stream's [eventSource] has been closed. *)
Record Ctrl := mkCtrl {
  messages : list Message;
  transactions : list TransactionDetails;
  txCount : nat;
  tempDir : option string;
  closed : bool
}.

Definition set_messages (st : Ctrl) (ms : list Message) : Ctrl :=
  mkCtrl ms (transactions st) (txCount st) (tempDir st) (closed st).

Definition set_transactions (st : Ctrl) (ts : list TransactionDetails) : Ctrl :=
  mkCtrl (messages st) ts (txCount st) (tempDir st) (closed st).

Definition set_txCount (st : Ctrl) (n : nat) : Ctrl :=
  mkCtrl (messages st) (transactions st) n (tempDir st) (closed st).

Definition set_tempDir (st : Ctrl) (d : option string) : Ctrl :=
  mkCtrl (messages st) (transactions st) (txCount st) d (closed st).

Definition close_stream (st : Ctrl) : Ctrl :=
  mkCtrl (messages st) (transactions st) (txCount st) (tempDir st) true.

(** ** JavaScript helpers *)

(** [messages[messages.length - 1]]: [undefined] on an empty array. *)
Fixpoint last_opt {A} (l : list A) : option A :=
  match l with
  | [] => None
  | [x] => Some x
  | _ :: l' => last_opt l'
  end.

(** [x?.f === v] for an optional [x]: [undefined === v] is false for a
    string [v]. *)
Definition opt_str_eqb (o : option string) (v : string) : bool :=
  match o with
  | Some s => String.eqb s v
  | None => false
  end.

(** Replace the last element of an array (the in-place mutation
    [lastMessage.content += ...] of the copied array). *)
Definition replace_last {A} (l : list A) (x : A) : list A :=
  (removelast l ++ [x])%list.

(** [String.prototype.includes]. *)
Fixpoint starts_with (s p : string) : bool :=
  match p, s with
  | EmptyString, _ => true
  | String c p', String d s' => Ascii.eqb c d && starts_with s' p'
  | String _ _, EmptyString => false
  end.

Fixpoint includes (s p : string) : bool :=
  starts_with s p ||
  match s with
  | EmptyString => false
  | String _ s' => includes s' p
  end.

(** Decimal rendering of a number, as in [str + n]. *)
Fixpoint digits_aux (fuel n : nat) (acc : string) : string :=
  match fuel with
  | 0 => acc
  | S f =>
      let acc' := String (ascii_of_nat (48 + n mod 10)) acc in
      if Nat.ltb n 10 then acc' else digits_aux f (n / 10) acc'
  end.

Definition string_of_nat (n : nat) : string := digits_aux (S n) n "".

(** [Array.prototype.join]. *)
Fixpoint join (sep : string) (l : list string) : string :=
  match l with
  | [] => ""
  | [x] => x
  | x :: l' => x ++ sep ++ join sep l'
  end.

Definition nl : string := String (ascii_of_nat 10) "".

(** ** The [setMessages] updater of both stream handlers

    Lines 172-197 (generation stream) and 248-273 (fix stream) pass the
    same updater to [setMessages].  It returns the new array and whether
    it called [eventSource.close()]; [None] is the [TypeError] raised by
    [lastMessage.content] when [lastMessage] is [undefined]. *)
Definition fold_step (prev : list Message) (data : ForgeResponse) (now : nat)
  : option (list Message * bool) :=
  let lastMessage := last_opt prev in
  if opt_str_eqb (option_map content lastMessage) (foutput data)
     && opt_str_eqb (option_map title lastMessage) (ftitle data)
  then Some (prev, false)
  else
    let isNewStep :=
      negb (opt_str_eqb (option_map title lastMessage) (ftitle data))
      && negb (String.eqb (ftitle data) "Error") in
    if isNewStep then
      Some ((prev ++ [mkMessage Ai (ftitle data) (foutput data) now])%list, false)
    else
      match lastMessage with
      | None => None
      | Some lm =>
          let c := content lm ++ foutput data in
          if String.eqb (ftitle data) "Error" then
            Some (replace_last prev
                    (mkMessage (role lm) (title lm ++ " (Failed)") c (timestamp lm)),
                  true)
          else
            Some (replace_last prev (mkMessage (role lm) (title lm) c (timestamp lm)),
                  false)
      end.

Definition apply_fold (st : Ctrl) (data : ForgeResponse) (now : nat) : option Ctrl :=
  match fold_step (messages st) data now with
  | None => None
  | Some (ms, cl) =>
      let st' := set_messages st ms in
      Some (if cl then close_stream st' else st')
  end.

(** ** The generation stream's [message] listener (lines 156-198) *)
Definition query_on_message (st : Ctrl) (data : ForgeResponse) (now : nat)
  : option Ctrl :=
  if String.eqb (ftitle data) "Debug" then Some st
  else if String.eqb (ftitle data) "Session" then
    Some (set_tempDir st (Some (foutput data)))
  else apply_fold st data now.

(** Events delivered in order on one stream, each with its clock reading. *)
Fixpoint query_run (st : Ctrl) (evs : list (ForgeResponse * nat)) : option Ctrl :=
  match evs with
  | [] => Some st
  | (d, now) :: evs' =>
      match query_on_message st d now with
      | None => None
      | Some st' => query_run st' evs'
      end
  end.

(** ** The fix stream's [onmessage] handler (lines 233-274)

    [JSON.parse] of a transaction plan is the parameter [parse_plan];
    [None] is a parse failure, which throws out of the handler. *)
Section FixStream.

Variable parse_plan : string -> option (list TransactionDetails).

Definition fix_on_message (st : Ctrl) (data : ForgeResponse) (now : nat)
  : option Ctrl :=
  if String.eqb (ftitle data) "Debug" then Some st
  else
    let st1 :=
      if String.eqb (ftitle data) "Simulating Transactions"
         && includes (foutput data) "[{"
      then option_map (set_transactions st) (parse_plan (foutput data))
      else Some st in
    match st1 with
    | None => None
    | Some st1 => apply_fold st1 data now
    end.

End FixStream.

(** ** The fix request [getFix] (lines 220-231)

    The query parameters of the fix stream it opens, or [None] when the
    guard [!lastMessage?.title.includes("Failed")] returns early. *)
Record FixParams := mkFixParams {
  error : string;
  rpc_url : string;
  temp_dir : string
}.

(** [tempDir || ""]. *)
Definition or_empty (o : option string) : string :=
  match o with
  | Some s => if String.eqb s "" then "" else s
  | None => ""
  end.

Definition getFix (st : Ctrl) (errorMessage : string) : option FixParams :=
  match last_opt (messages st) with
  | Some lm =>
      if includes (title lm) "Failed" then
        Some (mkFixParams errorMessage "http://ethereumreth:8545" (or_empty (tempDir st)))
      else None
  | None => None
  end.

(** ** The transaction effect (lines 295-351) *)

(** What [provider.request] does: resolve with a result carrying a
    hash, or reject (or throw) with an error message. *)
Inductive ProviderOutcome :=
| Sent (hash : string)
| Rejected (msg : string).

(** The entry appended before requesting a signature (lines 298-303);
    [count] and [total] are the [txCount] and [transactions.length]
    captured by the effect. *)
Definition pending_message (tx : TransactionDetails) (count total now : nat) : Message :=
  mkMessage Ai
    (function tx ++ " " ++ string_of_nat count ++ "/" ++ string_of_nat total)
    ("Please sign this transaction:" ++ nl ++ nl ++ "To: " ++ to tx ++ nl
     ++ "Function: " ++ function tx ++ nl ++ "Arguments: "
     ++ join ", " (arguments tx) ++ nl ++ "Value: " ++ value tx ++ " ETH")
    now.

(** [handleTransaction transaction], run to the outcome of the provider
    call.  [now] and [now'] are the clock readings of the two entries.
    In the [catch] branch, ["\n" + e.message || ...] parses as
    [("\n" + e.message) || ...], a non-empty string, so the fallback text
    is never used. *)
Definition handleTransaction (st : Ctrl) (tx : TransactionDetails) (now now' : nat)
  (r : ProviderOutcome) : option Ctrl :=
  let st1 := set_messages st
               (messages st ++ [pending_message tx (txCount st) (length (transactions st)) now])%list in
  match r with
  | Sent h =>
      let st2 := set_messages st1
                   (messages st1 ++ [mkMessage Ai "Transaction" ("Transaction sent! Hash: " ++ h) now'])%list in
      let st3 := set_transactions st2 (tl (transactions st2)) in
      Some (set_txCount st3 (S (txCount st3)))
  | Rejected m =>
      match last_opt (messages st1) with
      | None => None
      | Some lm =>
          let t := if String.eqb (title lm) "Transaction" then title lm ++ " (Failed)"
                   else title lm in
          Some (set_messages st1
                  (replace_last (messages st1)
                     (mkMessage (role lm) t (content lm ++ nl ++ m) (timestamp lm))))
      end
  end.

(** The effect body: [if (transactions.length > 0) handleTransaction(transactions[0])]. *)
Definition transaction_effect (st : Ctrl) (now now' : nat) (r : ProviderOutcome)
  : option Ctrl :=
  match transactions st with
  | [] => Some st
  | tx :: _ => handleTransaction st tx now now' r
  end.

(** The effect re-runs whenever [transactions] changes, that is after
    each successful submission; after a rejection [transactions] is left
    as it is and the effect does not run again. *)
Fixpoint transaction_run (st : Ctrl) (outs : list (nat * nat * ProviderOutcome))
  : option Ctrl :=
  match outs with
  | [] => Some st
  | (now, now', r) :: outs' =>
      match transactions st with
      | [] => Some st
      | _ :: _ =>
          match transaction_effect st now now' r with
          | None => None
          | Some st' =>
              match r with
              | Sent _ => transaction_run st' outs'
              | Rejected _ => Some st'
              end
          end
      end
  end.

(** ** The retrying event source [useEventSourceWithRetry] (lines 54-89) *)

(** What the [onerror] handler does after closing the connection:
    schedule [connect] after a delay, or call [options.onError]. *)
Inductive RetryAction :=
| ScheduleConnect (delay : Z)
| ReportError.

(** [!options.maxRetries]: true for [undefined] and for [0]. *)
Definition falsy_num (o : option Z) : bool :=
  match o with
  | None => true
  | Some m => Z.eqb m 0
  end.

(** The [onerror] handler (lines 69-80) on [retryCount]; returns the new
    [retryCount] and the action taken. *)
Definition on_error (maxRetries : option Z) (retryCount : Z) : Z * RetryAction :=
  if falsy_num maxRetries
     || match maxRetries with Some m => Z.ltb retryCount m | None => false end
  then
    let retryCount' := (retryCount + 1)%Z in
    (retryCount', ScheduleConnect (1000 * retryCount')%Z)
  else (retryCount, ReportError).

(** A connection that fails on every attempt: each unit of [fuel] is one
    call of [connect] whose [EventSource] fires [onerror].  The result is
    the sequence of actions the handler takes; after [ReportError] no
    [connect] is scheduled, so nothing more happens. *)
Fixpoint failing_run (fuel : nat) (maxRetries : option Z) (retryCount : Z)
  : list RetryAction :=
  match fuel with
  | 0 => []
  | S f =>
      let (retryCount', a) := on_error maxRetries retryCount in
      match a with
      | ScheduleConnect _ => a :: failing_run f maxRetries retryCount'
      | ReportError => [a]
      end
  end.

(** ** Submitting an intent: the start of [query] (lines 120-155) *)

(** [c] is whitespace removed by [String.prototype.trim].  Characters
    are the code units 0-255 (Latin-1); among them [trim] removes tab,
    line feed, vertical tab, form feed, carriage return (9-13), space (32)
    and no-break space (160).  It does not remove next line (133). *)
Definition is_ws (c : ascii) : bool :=
  let n := nat_of_ascii c in
  Nat.eqb n 32 || Nat.eqb n 160 || (Nat.leb 9 n && Nat.leb n 13).

(** [!prompt.trim()]: the prompt is empty or only whitespace. *)
Fixpoint is_blank (s : string) : bool :=
  match s with
  | EmptyString => true
  | String c s' => is_ws c && is_blank s'
  end.

(** The query parameters of the generation stream (lines 137-141). *)
Record StreamParams := mkStreamParams {
  sp_intent : string;
  sp_from_address : string;
  sp_rpc_url : string
}.

(** [query()] up to the opening of the new stream: [None] is the early
    return; otherwise the new state (user entry appended, previous stream
    closed and a new one open), the new [prompt] ([setPrompt("")]) and the
    parameters of the new stream.  [address] is [user?.wallet?.address]. *)
Definition query_start (st : Ctrl) (prompt : string) (address : option string) (now : nat)
  : option (Ctrl * string * StreamParams) :=
  if is_blank prompt then None
  else
    match address with
    | None => None
    | Some a =>
        if String.eqb a "" then None
        else
          Some (mkCtrl (messages st ++ [mkMessage User "Prompt" prompt now])%list
                  (transactions st) (txCount st) (tempDir st) false,
                "",
                mkStreamParams prompt a "http://ethereumreth:8545")
    end.

(** The generation stream's [error] listener (lines 205-217): when
    [error.eventPhase] is [0], close the stream and append a
    ["Connection Error"] entry. *)
Definition query_on_error (st : Ctrl) (eventPhase now : nat) : Ctrl :=
  if Nat.eqb eventPhase 0 then
    close_stream
      (set_messages st
         (messages st ++
          [mkMessage Ai "Connection Error" "Lost connection to server. Please try again." now])%list)
  else st.

(** ** Rendering of the transcript (lines 389-437) *)

(** The icon next to a step's title. *)
Inductive Badge := FailedIcon | SpinnerIcon | DoneIcon.

(** What is drawn for one message: a paragraph for a user message; for
    an AI message an accordion item with its title, icon, content and
    whether it has a "Get Fix" button (which calls [getFix(message.content)]). *)
Inductive EntryView :=
| UserText (c : string)
| StepItem (t : string) (b : Badge) (c : string) (fix_button : bool).

Definition entry_view (len index : nat) (m : Message) : EntryView :=
  match role m with
  | User => UserText (content m)
  | Ai =>
      let failed := includes (title m) "Failed" in
      StepItem (title m)
        (if failed then FailedIcon
         else if Nat.eqb index (len - 1) then SpinnerIcon else DoneIcon)
        (content m) failed
  end.

(** [messages.map((message, index) => ...)]. *)
Fixpoint render_from (len index : nat) (ms : list Message) : list EntryView :=
  match ms with
  | [] => []
  | m :: ms' => entry_view len index m :: render_from len (S index) ms'
  end.

Definition render (ms : list Message) : list EntryView := render_from (length ms) 0 ms.

(** ** Reachable controller states

    The states the app can reach from its initial state ([useState]
    values: no message, no transaction, count 0, no session) through its
    handlers, in any order: submitting an intent, the generation stream's
    [message] and [error] listeners, the fix stream's [onmessage] (for any
    [JSON.parse] of a plan) and the transaction effect on any provider
    outcome.  Events are allowed in any order, so this includes every
    order in which they can really arrive. *)
Inductive reachable : Ctrl -> Prop :=
| R_init (cl : bool) : reachable (mkCtrl [] [] 0 None cl)
| R_query_start st prompt address now st' p sp :
    reachable st -> query_start st prompt address now = Some (st', p, sp) -> reachable st'
| R_query_message st d now st' :
    reachable st -> query_on_message st d now = Some st' -> reachable st'
| R_query_error st eventPhase now :
    reachable st -> reachable (query_on_error st eventPhase now)
| R_fix_message parse_plan st d now st' :
    reachable st -> fix_on_message parse_plan st d now = Some st' -> reachable st'
| R_transaction st now now' r st' :
    reachable st -> transaction_effect st now now' r = Some st' -> reachable st'.

(** ** Definitions stated from the specification *)

(** The content a step entry accumulates from its fragments, as the
    idempotence guard lets them through: starting from the first output,
    each later output is appended unless it equals the content
    accumulated so far. *)
Definition grouped_content (first : string) (rest : list string) : string :=
  fold_left (fun acc o => if String.eqb acc o then acc else acc ++ o) rest first.

(** The output of the last ["Session"] event of a stream, if any. *)
Fixpoint last_session_output (evs : list (ForgeResponse * nat)) : option string :=
  match evs with
  | [] => None
  | (d, _) :: evs' =>
      match last_session_output evs' with
      | Some s => Some s
      | None => if String.eqb (ftitle d) "Session" then Some (foutput d) else None
      end
  end.

(** Plain concatenation of fragments. *)
Definition concat_all (l : list string) : string := fold_right String.append "" l.

(** ** Sample inputs *)

(** A transcript holding the user's prompt. *)
Definition prompt_state : Ctrl :=
  mkCtrl [mkMessage User "Prompt" "swap 1 ETH for USDC" 0] [] 0 None false.

(** A transcript whose last entry is a step ["swap"] with content ["x"]. *)
Definition swap_state : Ctrl :=
  mkCtrl [mkMessage User "Prompt" "swap 1 ETH for USDC" 0; mkMessage Ai "swap" "x" 1]
    [] 0 None false.

(** A transcript whose last step has failed, after a generation stream. *)
Definition failed_state : Ctrl :=
  mkCtrl [mkMessage User "Prompt" "swap 1 ETH for USDC" 0; mkMessage Ai "swap (Failed)" "xboom" 1]
    [] 0 None true.

Definition tx_approve : TransactionDetails :=
  mkTransactionDetails "0xA0b8" "approve" ["0xE592"; "1000"] "0" "0x095ea7b3".

Definition tx_swap : TransactionDetails :=
  mkTransactionDetails "0xE592" "exactInputSingle" ["0xA0b8"; "1000"] "0" "0x414bf389".

(** A double quote, to spell JSON text. *)
Definition dq : string := String (ascii_of_nat 34) "".

(** The JSON text of a one-transaction plan. *)
Definition plan_json : string :=
  "[{" ++ dq ++ "to" ++ dq ++ ":" ++ dq ++ "0xA0b8" ++ dq ++ ","
  ++ dq ++ "function" ++ dq ++ ":" ++ dq ++ "approve" ++ dq ++ ","
  ++ dq ++ "arguments" ++ dq ++ ":[" ++ dq ++ "0xE592" ++ dq ++ "," ++ dq ++ "1000" ++ dq ++ "],"
  ++ dq ++ "value" ++ dq ++ ":" ++ dq ++ "0" ++ dq ++ ","
  ++ dq ++ "input_data" ++ dq ++ ":" ++ dq ++ "0x095ea7b3" ++ dq ++ "}]".

(** A [JSON.parse] that decodes [plan_json]. *)
Definition parse_sample (s : string) : option (list TransactionDetails) :=
  if String.eqb s plan_json then Some [tx_approve] else None.

(** ** Helper lemmas *)

Lemma last_opt_snoc {A} (l : list A) (x : A) : last_opt (l ++ [x])%list = Some x.
Proof.
  induction l as [|a l IH]; [reflexivity|].
  simpl. destruct (l ++ [x])%list eqn:E; [destruct l; discriminate|exact IH].
Qed.

Lemma last_opt_nil {A} (l : list A) : last_opt l = None -> l = [].
Proof.
  induction l as [|a l IH]; [reflexivity|].
  simpl. destruct l; [discriminate|]. intro H. specialize (IH H). discriminate.
Qed.

Lemma last_opt_split {A} (l : list A) (x : A) :
  last_opt l = Some x -> l = (removelast l ++ [x])%list.
Proof.
  induction l as [|a l IH]; [discriminate|].
  simpl. destruct l as [|b l].
  - intros H. injection H as ->. reflexivity.
  - intros H. change (removelast (a :: b :: l)) with (a :: removelast (b :: l)).
    simpl. f_equal. exact (IH H).
Qed.

Lemma replace_last_snoc {A} (l : list A) (x y : A) :
  replace_last (l ++ [x])%list y = (l ++ [y])%list.
Proof. unfold replace_last. rewrite removelast_last. reflexivity. Qed.

Lemma eqb_false (s t : string) : s <> t -> String.eqb s t = false.
Proof. apply String.eqb_neq. Qed.

Lemma string_length_append (s t : string) :
  String.length (s ++ t) = String.length s + String.length t.
Proof. induction s as [|c s IH]; simpl; [reflexivity|now rewrite IH]. Qed.

Lemma append_length_ne (s t : string) : t <> "" -> s ++ t <> s.
Proof.
  intros Ht E. apply (f_equal String.length) in E.
  rewrite string_length_append in E. destruct t; [contradiction|simpl in E; lia].
Qed.

Lemma empty_append (s : string) : "" ++ s = s.
Proof. reflexivity. Qed.

Create Rewrite HintDb forge.
#[local] Hint Rewrite String.eqb_refl @last_opt_snoc @replace_last_snoc : forge.

(** The generation stream's listener never touches [transactions]. *)
Lemma apply_fold_transactions st d n st' :
  apply_fold st d n = Some st' -> transactions st' = transactions st.
Proof.
  unfold apply_fold. destruct (fold_step (messages st) d n) as [[ms [|]]|];
    intros H; inversion H; reflexivity.
Qed.

Lemma query_on_message_transactions st d n st' :
  query_on_message st d n = Some st' -> transactions st' = transactions st.
Proof.
  unfold query_on_message.
  destruct (String.eqb (ftitle d) "Debug"); [intros H; inversion H; reflexivity|].
  destruct (String.eqb (ftitle d) "Session"); [intros H; inversion H; reflexivity|].
  apply apply_fold_transactions.
Qed.

Lemma apply_fold_tempDir st d n st' :
  apply_fold st d n = Some st' -> tempDir st' = tempDir st.
Proof.
  unfold apply_fold. destruct (fold_step (messages st) d n) as [[ms [|]]|];
    intros H; inversion H; reflexivity.
Qed.

Lemma query_on_message_tempDir st d n st' :
  query_on_message st d n = Some st' ->
  tempDir st' = if String.eqb (ftitle d) "Session" then Some (foutput d) else tempDir st.
Proof.
  unfold query_on_message.
  destruct (String.eqb (ftitle d) "Debug") eqn:Ed.
  - intros H; inversion H; subst.
    apply String.eqb_eq in Ed. rewrite Ed. reflexivity.
  - destruct (String.eqb (ftitle d) "Session"); [intros H; inversion H; reflexivity|].
    apply apply_fold_tempDir.
Qed.

Lemma string_append_empty (s : string) : s ++ "" = s.
Proof. induction s as [|c s IH]; simpl; [reflexivity|now rewrite IH]. Qed.

Lemma string_append_assoc (s t u : string) : s ++ (t ++ u) = (s ++ t) ++ u.
Proof. induction s as [|c s IH]; simpl; [reflexivity|now rewrite IH]. Qed.

(** With no fragment equal to the content accumulated before it, the
    guarded accumulation is the plain concatenation. *)
Lemma grouped_content_concat (first : string) (rest : list string) :
  (forall pre o suf, rest = (pre ++ o :: suf)%list -> first ++ concat_all pre <> o) ->
  grouped_content first rest = first ++ concat_all rest.
Proof.
  revert first. induction rest as [|o rest IH]; intros first H.
  - simpl. symmetry. apply string_append_empty.
  - unfold grouped_content. simpl.
    assert (Hne : first <> o).
    { intro E. apply (H [] o rest); [reflexivity|]. simpl.
      now rewrite string_append_empty. }
    rewrite (eqb_false _ _ Hne). fold (grouped_content (first ++ o) rest).
    rewrite IH.
    + apply eq_sym, string_append_assoc.
    + intros pre o' suf E. rewrite <- string_append_assoc.
      apply (H (o :: pre) o' suf). simpl. now rewrite E.
Qed.

(** A fragment continuing the step of the last entry. *)
Lemma query_step_continue st ms t acc n0 o n :
  t <> "Error" -> t <> "Debug" -> t <> "Session" ->
  messages st = (ms ++ [mkMessage Ai t acc n0])%list ->
  query_on_message st (mkForgeResponse t o) n =
    Some (set_messages st
            (ms ++ [mkMessage Ai t (if String.eqb acc o then acc else acc ++ o) n0])%list).
Proof.
  intros He Hd Hs Hm.
  unfold query_on_message, apply_fold, fold_step; simpl.
  rewrite (eqb_false _ _ Hd), (eqb_false _ _ Hs), Hm.
  autorewrite with forge; simpl. rewrite String.eqb_refl.
  destruct (String.eqb acc o); simpl; [reflexivity|].
  rewrite (eqb_false _ _ He). autorewrite with forge. reflexivity.
Qed.

(** A fragment whose title differs from the last entry's starts a new one. *)
Lemma query_step_new st t o n :
  t <> "Error" -> t <> "Debug" -> t <> "Session" ->
  (forall lm, last_opt (messages st) = Some lm -> title lm <> t) ->
  query_on_message st (mkForgeResponse t o) n =
    Some (set_messages st (messages st ++ [mkMessage Ai t o n])%list).
Proof.
  intros He Hd Hs Hl.
  unfold query_on_message, apply_fold, fold_step; simpl.
  rewrite (eqb_false _ _ Hd), (eqb_false _ _ Hs), (eqb_false _ _ He).
  destruct (last_opt (messages st)) as [lm|] eqn:E; simpl.
  - rewrite (eqb_false _ _ (Hl lm eq_refl)), andb_false_r. reflexivity.
  - reflexivity.
Qed.

Lemma query_run_continue t (evs : list (ForgeResponse * nat)) :
  t <> "Error" -> t <> "Debug" -> t <> "Session" ->
  Forall (fun e => ftitle (fst e) = t) evs ->
  forall st ms acc n0,
  messages st = (ms ++ [mkMessage Ai t acc n0])%list ->
  query_run st evs =
    Some (set_messages st
            (ms ++ [mkMessage Ai t (grouped_content acc (map (fun e => foutput (fst e)) evs)) n0])%list).
Proof.
  intros He Hd Hs Hall. induction Hall as [|[[dt o] n] evs Ht Hall IH];
    intros st ms acc n0 Hm.
  - destruct st; simpl in *; subst. reflexivity.
  - simpl in Ht. subst dt. simpl.
    rewrite (query_step_continue st ms t acc n0 o n He Hd Hs Hm).
    rewrite (IH _ ms (if String.eqb acc o then acc else acc ++ o) n0); reflexivity.
Qed.

Lemma string_append_nonempty_ne (s t : string) : s <> "" -> s ++ t <> t.
Proof.
  intros Hs E. apply (f_equal String.length) in E.
  rewrite string_length_append in E. destruct s; [contradiction|simpl in E; lia].
Qed.

Lemma failed_title_not_error (s : string) : s ++ " (Failed)" <> "Error".
Proof.
  intros E. apply (f_equal String.length) in E.
  rewrite string_length_append in E. simpl in E. lia.
Qed.

(** When the updater leaves the array as it was or pushes a new entry, it
    closes nothing and a second run of it on its result changes nothing. *)
Lemma fold_step_stable prev d n n' ms cl :
  fold_step prev d n = Some (ms, cl) ->
  (ms = prev \/ ms = (prev ++ [mkMessage Ai (ftitle d) (foutput d) n])%list) ->
  cl = false /\ fold_step ms d n' = Some (ms, false).
Proof.
  unfold fold_step. destruct (last_opt prev) as [lm|] eqn:El; simpl.
  - destruct (String.eqb (content lm) (foutput d) && String.eqb (title lm) (ftitle d)) eqn:G.
    + intros H _. injection H as <- <-. split; [reflexivity|].
      rewrite El. simpl. rewrite G. reflexivity.
    + destruct (negb (String.eqb (title lm) (ftitle d)) && negb (String.eqb (ftitle d) "Error"))
        eqn:N.
      * intros H _. injection H as <- <-. split; [reflexivity|].
        autorewrite with forge; simpl; rewrite !String.eqb_refl; reflexivity.
      * pose proof (last_opt_split prev lm El) as Hp.
        destruct (String.eqb (ftitle d) "Error") eqn:Er; intros H Hms;
          injection H as <- <-; pose proof Hms as Hms0; unfold replace_last in Hms;
          rewrite Hp in Hms; rewrite removelast_last in Hms.
        -- exfalso. destruct Hms as [Hms|Hms].
           ++ apply app_inj_tail in Hms. destruct Hms as [_ Hm].
              apply (f_equal title) in Hm. simpl in Hm.
              apply (append_length_ne (title lm) " (Failed)"); [discriminate|exact Hm].
           ++ apply (f_equal (@length Message)) in Hms.
              rewrite !length_app in Hms. simpl in Hms. lia.
        -- destruct Hms0 as [Hms0|Hms0].
           ++ split; [reflexivity|]. rewrite Hms0.
              unfold fold_step. rewrite El. simpl. rewrite G. simpl in N. rewrite N. rewrite Hms0. reflexivity.
           ++ exfalso. destruct Hms as [Hms|Hms]; [|].
              ** rewrite <- Hp in Hms. unfold replace_last in Hms0. rewrite Hms in Hms0.
                 apply (f_equal (@length Message)) in Hms0.
                 rewrite !length_app in Hms0. simpl in Hms0. lia.
              ** apply (f_equal (@length Message)) in Hms.
                 rewrite !length_app in Hms. simpl in Hms. lia.
  - destruct (String.eqb (ftitle d) "Error"); simpl; [discriminate|].
    intros H _. injection H as <- <-. split; [reflexivity|].
    autorewrite with forge; simpl; rewrite !String.eqb_refl; reflexivity.
Qed.

Lemma failing_run_capped (N : nat) :
  (1 <= N)%nat ->
  forall m r k, (r + m = N)%nat ->
  failing_run (S m + k) (Some (Z.of_nat N)) (Z.of_nat r) =
    (map (fun i => ScheduleConnect (1000 * Z.of_nat i)) (seq (S r) m) ++ [ReportError])%list.
Proof.
  intros HN m. induction m as [|m IH]; intros r k Hr.
  - replace r with N by lia. simpl. unfold on_error, falsy_num.
    replace (Z.of_nat N =? 0)%Z with false by (symmetry; apply Z.eqb_neq; lia).
    rewrite Z.ltb_irrefl. reflexivity.
  - simpl. unfold on_error at 1, falsy_num.
    replace (Z.of_nat N =? 0)%Z with false by (symmetry; apply Z.eqb_neq; lia).
    replace (Z.of_nat r <? Z.of_nat N)%Z with true by (symmetry; apply Z.ltb_lt; lia).
    simpl. replace (Z.of_nat r + 1)%Z with (Z.of_nat (S r)) by lia.
    f_equal. apply (IH (S r) k). lia.
Qed.

Lemma failing_run_uncapped (mr : option Z) :
  falsy_num mr = true ->
  forall fuel r,
  failing_run fuel mr (Z.of_nat r) =
    map (fun i => ScheduleConnect (1000 * Z.of_nat i)) (seq (S r) fuel).
Proof.
  intros Hf fuel. induction fuel as [|fuel IH]; intros r; [reflexivity|].
  simpl. unfold on_error at 1. rewrite Hf. simpl.
  replace (Z.of_nat r + 1)%Z with (Z.of_nat (S r)) by lia.
  rewrite IH. reflexivity.
Qed.

Lemma query_run_tempDir st evs :
  forall st', query_run st evs = Some st' ->
  tempDir st' = match last_session_output evs with
                | Some s => Some s
                | None => tempDir st
                end.
Proof.
  revert st. induction evs as [|[d n] evs IH]; intros st st' H.
  - injection H as <-. reflexivity.
  - simpl in H. destruct (query_on_message st d n) as [st1|] eqn:E; [|discriminate].
    rewrite (IH st1 st' H), (query_on_message_tempDir st d n st1 E). simpl.
    destruct (last_session_output evs); [reflexivity|].
    destruct (String.eqb (ftitle d) "Session"); reflexivity.
Qed.

Ltac case_ifs :=
  repeat match goal with
         | |- context [if ?b then _ else _] => destruct b
         end.

Ltac case_ifs_eqn :=
  repeat match goal with
         | |- context [if ?b then _ else _] => let E := fresh "E" in destruct b eqn:E
         end.

Ltac solve_not_error :=
  first
    [ apply failed_title_not_error
    | assumption
    | match goal with
      | H : _ && negb (String.eqb ?t "Error") = true |- ?t <> "Error" =>
          apply andb_prop in H; destruct H as [_ H];
          apply negb_true_iff, String.eqb_neq in H; exact H
      | H : negb (String.eqb ?t "Error") = true |- ?t <> "Error" =>
          apply negb_true_iff, String.eqb_neq in H; exact H
      end ].

Lemma fold_step_no_error_title prev d n ms cl :
  Forall (fun m => title m <> "Error") prev ->
  fold_step prev d n = Some (ms, cl) ->
  Forall (fun m => title m <> "Error") ms.
Proof.
  intros Hall. unfold fold_step. destruct (last_opt prev) as [lm|] eqn:El; simpl.
  - pose proof (last_opt_split prev lm El) as Hp.
    remember (removelast prev) as R. clear HeqR. subst prev.
    apply Forall_app in Hall. destruct Hall as [HR Hlm].
    pose proof (Forall_inv Hlm) as Ht. simpl in Ht.
    rewrite !replace_last_snoc.
    case_ifs_eqn; intros H; injection H as <- <-; apply Forall_app; split;
      try (apply Forall_app; split); try assumption; repeat constructor; simpl;
      solve_not_error.
  - apply last_opt_nil in El. subst prev.
    case_ifs_eqn; intros H; try discriminate; injection H as <- <-.
    repeat constructor. simpl. solve_not_error.
Qed.

Lemma includes_append_r (a b p : string) :
  includes b p = true -> includes (a ++ b) p = true.
Proof.
  intros H. induction a as [|c a IH]; simpl; [exact H|].
  rewrite IH. apply orb_true_r.
Qed.

Lemma includes_space_title (f x : string) : includes (f ++ " " ++ x) " " = true.
Proof. apply includes_append_r. destruct x; reflexivity. Qed.


Lemma pending_title_not_error tx count total now :
  title (pending_message tx count total now) <> "Error".
Proof.
  pose proof (includes_space_title (function tx)
                (string_of_nat count ++ "/" ++ string_of_nat total)) as H.
  simpl in H |- *. intros E. rewrite E in H. discriminate.
Qed.

Lemma apply_fold_no_error_title st d n st' :
  Forall (fun m => title m <> "Error") (messages st) ->
  apply_fold st d n = Some st' ->
  Forall (fun m => title m <> "Error") (messages st').
Proof.
  intros Hall. unfold apply_fold.
  destruct (fold_step (messages st) d n) as [[ms cl]|] eqn:F; [|discriminate].
  intros H. injection H as <-.
  assert (messages (if cl then close_stream (set_messages st ms) else set_messages st ms) = ms)
    as -> by (destruct cl; reflexivity).
  exact (fold_step_no_error_title _ _ _ _ _ Hall F).
Qed.

(** No reachable transcript holds an entry titled exactly ["Error"]. *)
Lemma reachable_no_error_title st :
  reachable st -> Forall (fun m => title m <> "Error") (messages st).
Proof.
  induction 1 as [cl | st p a now st' p' sp _ IH H | st d now st' _ IH H
                 | st phase now _ IH | pp st d now st' _ IH H | st now now' r st' _ IH H].
  - constructor.
  - unfold query_start in H. destruct (is_blank p); [discriminate|].
    destruct a as [s|]; [|discriminate]. destruct (String.eqb s ""); [discriminate|].
    injection H as <- _ _. cbn [messages]. apply Forall_app. split; [exact IH|].
    apply Forall_cons; [discriminate|constructor].
  - unfold query_on_message in H.
    destruct (String.eqb (ftitle d) "Debug"); [injection H as <-; exact IH|].
    destruct (String.eqb (ftitle d) "Session"); [injection H as <-; exact IH|].
    exact (apply_fold_no_error_title _ _ _ _ IH H).
  - unfold query_on_error. destruct (Nat.eqb phase 0); [|exact IH].
    cbn [messages close_stream set_messages]. apply Forall_app. split; [exact IH|].
    apply Forall_cons; [discriminate|constructor].
  - unfold fix_on_message in H.
    destruct (String.eqb (ftitle d) "Debug"); [injection H as <-; exact IH|].
    destruct (String.eqb (ftitle d) "Simulating Transactions" && includes (foutput d) "[{").
    + destruct (pp (foutput d)) as [plan|]; simpl in H; [|discriminate].
      exact (apply_fold_no_error_title (set_transactions st plan) _ _ _ IH H).
    + exact (apply_fold_no_error_title _ _ _ _ IH H).
  - unfold transaction_effect in H.
    destruct (transactions st) as [|tx rest]; [injection H as <-; exact IH|].
    unfold handleTransaction in H. destruct r as [h|m].
    + injection H as <-. cbn [messages set_messages set_transactions set_txCount].
      apply Forall_app. split; [apply Forall_app; split; [exact IH|]|].
      * apply Forall_cons; [apply pending_title_not_error|constructor].
      * apply Forall_cons; [discriminate|constructor].
    + cbn [messages set_messages] in H. rewrite last_opt_snoc in H.
      injection H as <-. cbn [messages set_messages]. rewrite replace_last_snoc.
      apply Forall_app. split; [exact IH|].
      apply Forall_cons; [|constructor]. cbn [title].
      destruct (String.eqb _ "Transaction");
        [apply failed_title_not_error
        |exact (pending_title_not_error tx (txCount st) (length (transactions st)) now)].
Qed.

(** ** Claims *)

(** C1 (amended).  Folding a non-empty sequence of events that share a
    title [t] (not ["Error"], nor the control titles ["Debug"] and
    ["Session"]) into a transcript whose last entry, if any, has another
    title appends exactly one entry, titled [t]; its content is the
    concatenation of the outputs in delivery order, leaving out each
    output equal to the content accumulated before it (the idempotence
    guard), and is the plain concatenation when no output is left out. *)
Theorem step_grouping st t e0 evs :
  t <> "Error" -> t <> "Debug" -> t <> "Session" ->
  (forall lm, last_opt (messages st) = Some lm -> title lm <> t) ->
  Forall (fun e => ftitle (fst e) = t) (e0 :: evs) ->
  query_run st (e0 :: evs) =
    Some (set_messages st
            (messages st ++
             [mkMessage Ai t
                (grouped_content (foutput (fst e0)) (map (fun e => foutput (fst e)) evs))
                (snd e0)])%list)
  /\ ((forall pre o suf, map (fun e => foutput (fst e)) evs = (pre ++ o :: suf)%list ->
         foutput (fst e0) ++ concat_all pre <> o) ->
      grouped_content (foutput (fst e0)) (map (fun e => foutput (fst e)) evs)
      = concat_all (map (fun e => foutput (fst e)) (e0 :: evs))).
Proof.
  intros He Hd Hs Hl Hall.
  pose proof (Forall_inv Hall) as Ht0. pose proof (Forall_inv_tail Hall) as Hrest.
  split.
  - destruct e0 as [[dt o] n]. simpl in Ht0. subst dt. simpl.
    rewrite (query_step_new st t o n He Hd Hs Hl).
    rewrite (query_run_continue t evs He Hd Hs Hrest
               (set_messages st (messages st ++ [mkMessage Ai t o n])%list)
               (messages st) o n eq_refl).
    reflexivity.
  - intros H. rewrite grouped_content_concat by exact H. reflexivity.
Qed.

Lemma step_grouping_witness :
  query_run prompt_state
    [(mkForgeResponse "swap" "Calculating", 1); (mkForgeResponse "swap" " route", 2)] =
  Some (set_messages prompt_state
          (messages prompt_state ++
           [mkMessage Ai "swap" (grouped_content "Calculating" [" route"]) 1])%list).
Proof.
  apply (step_grouping prompt_state "swap" (mkForgeResponse "swap" "Calculating", 1)
           [(mkForgeResponse "swap" " route", 2)]);
    try discriminate.
  - intros lm E. simpl in E. injection E as <-. discriminate.
  - repeat constructor.
Defined.

(** C1 (counterexample).  Two fragments ["x"], ["x"] of one step give an
    entry with content ["x"], not the concatenation ["xx"]. *)
Lemma step_grouping_duplicate_fragment :
  ~ (exists st' m,
       query_run prompt_state
         [(mkForgeResponse "swap" "x", 1); (mkForgeResponse "swap" "x", 2)] = Some st'
       /\ messages st' = (messages prompt_state ++ [m])%list
       /\ content m = "x" ++ "x").
Proof.
  intros (st' & m & H1 & H2 & H3).
  vm_compute in H1. injection H1 as <-. simpl in H2.
  apply (app_inj_tail [_] [_]) in H2. destruct H2 as [_ <-].
  simpl in H3. discriminate.
Qed.

(** C2 (amended).  Folding the same event twice in a row gives the same
    transcript as folding it once when the first fold leaves the
    transcript's entries as they were or starts a new entry.  When the
    first fold appends the output to the existing last entry (a
    continuation of a step whose content was non-empty, or an ["Error"]
    event), the second fold appends the output again, and an ["Error"]
    event suffixes the failure marker again. *)
Theorem fold_twice st d n n' :
  (forall st', query_on_message st d n = Some st' ->
     (messages st' = messages st
      \/ messages st' = (messages st ++ [mkMessage Ai (ftitle d) (foutput d) n])%list) ->
     query_on_message st' d n' = Some st')
  /\ (forall ms lm,
        messages st = (ms ++ [lm])%list ->
        ftitle d <> "Debug" -> ftitle d <> "Session" ->
        ~ (content lm = foutput d /\ title lm = ftitle d) ->
        (title lm = ftitle d \/ ftitle d = "Error") ->
        (content lm <> "" \/ ftitle d = "Error") ->
        exists st' st'',
          query_on_message st d n = Some st'
          /\ query_on_message st' d n' = Some st''
          /\ messages st'' =
               (ms ++ [mkMessage (role lm)
                         (if String.eqb (ftitle d) "Error"
                          then (title lm ++ " (Failed)") ++ " (Failed)" else title lm)
                         ((content lm ++ foutput d) ++ foutput d) (timestamp lm)])%list).
Proof.
  split.
  - intros st'. unfold query_on_message.
    destruct (String.eqb (ftitle d) "Debug") eqn:Ed.
    { intros H _. injection H as <-. reflexivity. }
    destruct (String.eqb (ftitle d) "Session") eqn:Es.
    { intros H _. injection H as <-. destruct st; reflexivity. }
    unfold apply_fold. destruct (fold_step (messages st) d n) as [[ms cl]|] eqn:F;
      [|discriminate].
    intros H Hm. injection H as <-.
    assert (Hms : messages (if cl then close_stream (set_messages st ms) else set_messages st ms) = ms)
      by (destruct cl; reflexivity).
    rewrite Hms in Hm.
    destruct (fold_step_stable _ _ _ n' _ _ F Hm) as [-> F'].
    simpl. rewrite F'. reflexivity.
  - intros ms lm Hm Hd Hs Hg Ht Hc.
    assert (G : (String.eqb (content lm) (foutput d) && String.eqb (title lm) (ftitle d)) = false).
    { destruct (String.eqb_spec (content lm) (foutput d));
        destruct (String.eqb_spec (title lm) (ftitle d)); tauto. }
    assert (N : (negb (String.eqb (title lm) (ftitle d)) && negb (String.eqb (ftitle d) "Error")) = false).
    { destruct Ht as [-> | ->]; rewrite String.eqb_refl; [reflexivity|apply andb_false_r]. }
    unfold query_on_message. rewrite (eqb_false _ _ Hd), (eqb_false _ _ Hs).
    unfold apply_fold, fold_step. rewrite Hm, last_opt_snoc. simpl. rewrite G, N.
    destruct (String.eqb (ftitle d) "Error") eqn:Er.
    + apply String.eqb_eq in Er.
      eexists; eexists; split; [reflexivity|]. simpl.
      rewrite replace_last_snoc, last_opt_snoc. simpl.
      rewrite (eqb_false (title lm ++ " (Failed)") (ftitle d))
        by (rewrite Er; apply failed_title_not_error).
      rewrite andb_false_r. rewrite Er. simpl. rewrite replace_last_snoc.
      split; reflexivity.
    + destruct Ht as [Ht|Ht]; [|rewrite Ht in Er; discriminate].
      destruct Hc as [Hc|Hc]; [|rewrite Hc in Er; discriminate].
      eexists; eexists; split; [reflexivity|]. simpl.
      rewrite replace_last_snoc, last_opt_snoc. simpl.
      rewrite (eqb_false (content lm ++ foutput d) (foutput d))
        by (apply string_append_nonempty_ne; exact Hc).
      rewrite Ht, String.eqb_refl. simpl. rewrite replace_last_snoc.
      split; reflexivity.
Qed.

Lemma fold_twice_witness :
  (exists st',
     query_on_message prompt_state (mkForgeResponse "swap" "x") 1 = Some st'
     /\ query_on_message st' (mkForgeResponse "swap" "x") 2 = Some st')
  /\ (exists st' st'',
        query_on_message swap_state (mkForgeResponse "swap" "y") 1 = Some st'
        /\ query_on_message st' (mkForgeResponse "swap" "y") 2 = Some st''
        /\ messages st'' =
             ([mkMessage User "Prompt" "swap 1 ETH for USDC" 0]
              ++ [mkMessage Ai "swap" (("x" ++ "y") ++ "y") 1])%list).
Proof.
  split.
  - eexists; split; [reflexivity|].
    apply (proj1 (fold_twice prompt_state (mkForgeResponse "swap" "x") 1 2));
      [reflexivity|right; reflexivity].
  - apply (proj2 (fold_twice swap_state (mkForgeResponse "swap" "y") 1 2)
             [mkMessage User "Prompt" "swap 1 ETH for USDC" 0] (mkMessage Ai "swap" "x" 1));
      simpl; try reflexivity; try discriminate.
    + intros [H _]. discriminate.
    + left; reflexivity.
    + left; discriminate.
Defined.

(** C2 (counterexample).  A duplicate continuation fragment ["y"] of the
    step ["swap"] is appended twice: ["xy"] becomes ["xyy"]. *)
Lemma fold_twice_duplicate_append :
  match query_on_message swap_state (mkForgeResponse "swap" "y") 1 with
  | Some st' => query_on_message st' (mkForgeResponse "swap" "y") 2 <> Some st'
  | None => False
  end.
Proof. vm_compute. discriminate. Qed.

(** C3.  On every reachable transcript that is non-empty, folding an
    ["Error"] event creates no entry, in either stream: it appends the
    output to the last entry's content, suffixes that entry's title with
    [" (Failed)"] and closes the stream, whatever the last entry's title.
    (The idempotence guard never applies, as no reachable entry is titled
    exactly ["Error"].) *)
Theorem error_absorption st ms lm o n :
  reachable st ->
  messages st = (ms ++ [lm])%list ->
  query_on_message st (mkForgeResponse "Error" o) n =
    Some (close_stream
            (set_messages st
               (ms ++ [mkMessage (role lm) (title lm ++ " (Failed)") (content lm ++ o)
                         (timestamp lm)])%list))
  /\ forall parse_plan,
       fix_on_message parse_plan st (mkForgeResponse "Error" o) n =
         Some (close_stream
                 (set_messages st
                    (ms ++ [mkMessage (role lm) (title lm ++ " (Failed)") (content lm ++ o)
                              (timestamp lm)])%list)).
Proof.
  intros Hr Hm.
  pose proof (reachable_no_error_title st Hr) as Hall.
  rewrite Hm in Hall. apply Forall_app in Hall. destruct Hall as [_ Hl].
  pose proof (Forall_inv Hl) as Ht. cbv beta in Ht.
  assert (G : (String.eqb (content lm) o && String.eqb (title lm) "Error") = false).
  { destruct (String.eqb_spec (title lm) "Error"); [contradiction|apply andb_false_r]. }
  split; [|intros parse_plan];
    unfold query_on_message, fix_on_message, apply_fold, fold_step; simpl;
    rewrite Hm, last_opt_snoc; simpl;
    rewrite G, andb_false_r, replace_last_snoc; reflexivity.
Qed.

Lemma error_absorption_witness :
  query_on_message swap_state (mkForgeResponse "Error" "boom") 2 =
    Some (close_stream
            (set_messages swap_state
               ([mkMessage User "Prompt" "swap 1 ETH for USDC" 0]
                ++ [mkMessage Ai ("swap" ++ " (Failed)") ("x" ++ "boom") 1])%list))
  /\ forall parse_plan,
       fix_on_message parse_plan swap_state (mkForgeResponse "Error" "boom") 2 =
         Some (close_stream
                 (set_messages swap_state
                    ([mkMessage User "Prompt" "swap 1 ETH for USDC" 0]
                     ++ [mkMessage Ai ("swap" ++ " (Failed)") ("x" ++ "boom") 1])%list)).
Proof.
  apply (error_absorption swap_state [mkMessage User "Prompt" "swap 1 ETH for USDC" 0]
           (mkMessage Ai "swap" "x" 1) "boom" 2).
  - apply (R_query_message
             (mkCtrl [mkMessage User "Prompt" "swap 1 ETH for USDC" 0] [] 0 None false)
             (mkForgeResponse "swap" "x") 1).
    + apply (R_query_start (mkCtrl [] [] 0 None true) "swap 1 ETH for USDC" (Some "0x71C7") 0
               _ "" (mkStreamParams "swap 1 ETH for USDC" "0x71C7" "http://ethereumreth:8545")).
      * apply R_init.
      * reflexivity.
    + reflexivity.
  - reflexivity.
Defined.

(** C4.  With a retry cap [N >= 1] and a connection that fails on every
    attempt, the handler schedules exactly [N] reconnections, the k-th
    after [k * 1000] ms, and then calls the terminal error callback
    exactly once, after which nothing more is scheduled (any further
    [fuel] [k] is unused). *)
Theorem retry_bound (N k : nat) :
  (1 <= N)%nat ->
  failing_run (S N + k) (Some (Z.of_nat N)) 0 =
    (map (fun i => ScheduleConnect (1000 * Z.of_nat i)) (seq 1 N) ++ [ReportError])%list.
Proof.
  intros HN. apply (failing_run_capped N HN N 0 k). lia.
Qed.

Lemma retry_bound_witness :
  failing_run (S 3 + 2) (Some (Z.of_nat 3)) 0 =
    [ScheduleConnect 1000; ScheduleConnect 2000; ScheduleConnect 3000; ReportError].
Proof. apply (retry_bound 3 2). lia. Defined.

(** C9.  With an explicit retry cap of [0] ([!options.maxRetries] is
    true), the hook behaves as with no cap: every failure schedules
    another connection, with delays [1000, 2000, ...], and the terminal
    error callback is never called. *)
Theorem retry_zero_cap (fuel : nat) :
  failing_run fuel (Some 0%Z) 0 = failing_run fuel None 0
  /\ failing_run fuel (Some 0%Z) 0 =
       map (fun i => ScheduleConnect (1000 * Z.of_nat i)) (seq 1 fuel)
  /\ ~ In ReportError (failing_run fuel (Some 0%Z) 0).
Proof.
  pose proof (failing_run_uncapped (Some 0%Z) eq_refl fuel 0) as H0.
  pose proof (failing_run_uncapped None eq_refl fuel 0) as H1.
  simpl in H0, H1. rewrite H0, H1.
  split; [reflexivity|split; [reflexivity|]].
  intros Hin. apply in_map_iff in Hin. destruct Hin as [i [Hi _]]. discriminate.
Qed.

(** C10.  Folding an ["Error"] event into an empty transcript throws (the
    [TypeError] on [lastMessage.content]), in the generation stream's
    listener and in the fix stream's handler alike. *)
Theorem error_on_empty_throws ts c td cl o n parse_plan :
  query_on_message (mkCtrl [] ts c td cl) (mkForgeResponse "Error" o) n = None
  /\ fix_on_message parse_plan (mkCtrl [] ts c td cl) (mkForgeResponse "Error" o) n = None.
Proof. split; reflexivity. Qed.

(** C8 (amended).  Every ["Session"] event overwrites [tempDir]: after a
    stream the retained session identifier is the output of the last
    ["Session"] event, and a fix request passes exactly that identifier as
    [temp_dir]. *)
Theorem session_last st evs st' s :
  query_run st evs = Some st' ->
  last_session_output evs = Some s ->
  tempDir st' = Some s
  /\ (forall err p, getFix st' err = Some p -> temp_dir p = s).
Proof.
  intros H Hs. pose proof (query_run_tempDir st evs st' H) as Ht.
  rewrite Hs in Ht. split; [exact Ht|].
  intros err p. unfold getFix.
  destruct (last_opt (messages st')) as [lm|]; [|discriminate].
  destruct (includes (title lm) "Failed"); [|discriminate].
  intros Hp. injection Hp as <-. simpl. rewrite Ht. simpl.
  destruct (String.eqb_spec s ""); [subst; reflexivity|reflexivity].
Qed.

Lemma session_last_witness :
  exists st',
    query_run failed_state
      [(mkForgeResponse "Session" "abc123", 2); (mkForgeResponse "Session" "def456", 3)]
    = Some st'
    /\ tempDir st' = Some "def456"
    /\ (forall err p, getFix st' err = Some p -> temp_dir p = "def456").
Proof.
  eexists. split; [reflexivity|].
  apply (session_last failed_state
           [(mkForgeResponse "Session" "abc123", 2); (mkForgeResponse "Session" "def456", 3)]);
    reflexivity.
Defined.

(** C8 (counterexample).  With two ["Session"] events ["abc123"] then
    ["def456"], the retained identifier is not the first one, and the fix
    request passes ["def456"]. *)
Lemma session_first_not_retained :
  match query_run failed_state
          [(mkForgeResponse "Session" "abc123", 2); (mkForgeResponse "Session" "def456", 3)] with
  | Some st' => tempDir st' <> Some "abc123"
                /\ option_map temp_dir (getFix st' "boom") = Some "def456"
  | None => False
  end.
Proof. vm_compute. split; [discriminate|reflexivity]. Qed.

(** C5 (code defect).  The generation stream's listener never parses a
    transaction plan: a ["Simulating Transactions"] event carrying a plan
    leaves a pending plan in place, while the fix stream's handler, fed
    the same event, replaces it with the parsed plan. *)
Lemma initial_stream_ignores_plan :
  option_map transactions
    (query_on_message (set_transactions prompt_state [tx_swap])
       (mkForgeResponse "Simulating Transactions" plan_json) 1) = Some [tx_swap]
  /\ option_map transactions
       (fix_on_message parse_sample (set_transactions prompt_state [tx_swap])
          (mkForgeResponse "Simulating Transactions" plan_json) 1) = Some [tx_approve].
Proof. vm_compute. split; reflexivity. Qed.

(** C6 (code defect).  For a plan of two transactions, the second pending
    entry is titled ["exactInputSingle 1/1"]: the denominator is the
    current length of the queue, which shrinks as it is consumed. *)
Lemma plan_progress_title :
  option_map (fun st => map title (messages st))
    (transaction_run (set_transactions prompt_state [tx_approve; tx_swap])
       [(1, 2, Sent "0x1f"); (3, 4, Sent "0x2e")])
  = Some ["Prompt"; "approve 0/2"; "Transaction"; "exactInputSingle 1/1"; "Transaction"].
Proof. vm_compute. reflexivity. Qed.

(** C7 (code defect).  When the wallet rejects the first transaction, the
    reason is appended to the most recent entry (the pending one), the
    queue and the counter are unchanged, but the entry's title is not
    marked failed (only a title equal to ["Transaction"] is), so a fix
    cannot be requested. *)
Lemma rejected_tx_unmarked :
  match transaction_run (set_transactions prompt_state [tx_approve; tx_swap])
          [(1, 2, Rejected "User rejected the request.")] with
  | Some st' =>
      option_map title (last_opt (messages st')) = Some "approve 0/2"
      /\ option_map content (last_opt (messages st'))
         = Some (content (pending_message tx_approve 0 2 1) ++ nl ++ "User rejected the request.")
      /\ transactions st' = [tx_approve; tx_swap]
      /\ txCount st' = 0
      /\ getFix st' "User rejected the request." = None
  | None => False
  end.
Proof. vm_compute. repeat split; reflexivity. Qed.

(** ** Further properties of the controller *)

Lemma fold_step_none_cases prev d n :
  fold_step prev d n = None <-> prev = [] /\ ftitle d = "Error".
Proof.
  unfold fold_step. destruct (last_opt prev) as [lm|] eqn:El; simpl.
  - split.
    + case_ifs; discriminate.
    + intros [-> _]. discriminate.
  - apply last_opt_nil in El. subst prev.
    destruct (String.eqb_spec (ftitle d) "Error") as [E|E]; simpl.
    + tauto.
    + split; [discriminate|tauto].
Qed.

(** The updater throws exactly on an ["Error"] event with an empty
    transcript; in every other case it returns a transcript. *)
Theorem fold_step_throws_iff prev d n :
  fold_step prev d n = None <-> prev = [] /\ ftitle d = "Error".
Proof. apply fold_step_none_cases. Qed.


Lemma fold_step_shape prev d n ms cl :
  fold_step prev d n = Some (ms, cl) ->
  (exists tl, ms = (removelast prev ++ tl)%list)
  /\ length prev <= length ms <= S (length prev).
Proof.
  unfold fold_step. destruct (last_opt prev) as [lm|] eqn:El; simpl.
  - pose proof (last_opt_split prev lm El) as Hp.
    remember (removelast prev) as R. clear HeqR. subst prev.
    rewrite !replace_last_snoc.
    case_ifs; intros H; injection H as <- <-;
      (split; [first [eexists; reflexivity | eexists; rewrite <- app_assoc; reflexivity]
              |rewrite !length_app; simpl; lia]).
  - apply last_opt_nil in El. subst prev. simpl.
    case_ifs; intros H; try discriminate; injection H as <- <-.
    split; [exists [mkMessage Ai (ftitle d) (foutput d) n]; reflexivity|simpl; lia].
Qed.

(** The updater keeps every entry but the last one as it was, and adds
    at most one entry. *)
Theorem fold_step_prefix prev d n ms cl :
  fold_step prev d n = Some (ms, cl) ->
  (exists tl, ms = (removelast prev ++ tl)%list)
  /\ length prev <= length ms <= S (length prev).
Proof. apply fold_step_shape. Qed.

Lemma fold_step_prefix_witness :
  (exists tl, [mkMessage User "Prompt" "swap 1 ETH for USDC" 0; mkMessage Ai "swap" "xy" 1]
              = (removelast (messages swap_state) ++ tl)%list)
  /\ length (messages swap_state)
     <= length [mkMessage User "Prompt" "swap 1 ETH for USDC" 0; mkMessage Ai "swap" "xy" 1]
     <= S (length (messages swap_state)).
Proof.
  apply (fold_step_prefix (messages swap_state) (mkForgeResponse "swap" "y") 2 _ false).
  reflexivity.
Defined.


Lemma query_run_nonempty st evs :
  messages st <> [] ->
  exists st', query_run st evs = Some st' /\ messages st' <> [].
Proof.
  revert st. induction evs as [|[d n] evs IH]; intros st Hne.
  - exists st. split; [reflexivity|exact Hne].
  - simpl. unfold query_on_message at 1.
    destruct (String.eqb (ftitle d) "Debug"); [apply IH; exact Hne|].
    destruct (String.eqb (ftitle d) "Session"); [apply IH; exact Hne|].
    unfold apply_fold. destruct (fold_step (messages st) d n) as [[ms cl]|] eqn:F.
    + destruct (fold_step_shape _ _ _ _ _ F) as [_ [Hl _]].
      assert (Hms : ms <> []).
      { intros ->. simpl in Hl. destruct (messages st); [contradiction|simpl in Hl; lia]. }
      destruct cl; apply IH; exact Hms.
    + apply fold_step_none_cases in F. destruct F as [F _]. contradiction.
Qed.

(** Once the transcript holds an entry (the user's prompt is appended
    before the stream opens), the generation stream's listener never
    throws, whatever events arrive, and the transcript stays non-empty. *)
Theorem query_run_total st evs :
  messages st <> [] ->
  exists st', query_run st evs = Some st' /\ messages st' <> [].
Proof. apply query_run_nonempty. Qed.


Lemma query_run_total_witness :
  exists st',
    query_run prompt_state
      [(mkForgeResponse "Error" "boom", 1); (mkForgeResponse "Error" "again", 2)] = Some st'
    /\ messages st' <> [].
Proof. apply query_run_total. simpl. discriminate. Defined.

(** The generation stream never creates an entry titled exactly
    ["Error"]: new steps are never started for ["Error"] events and a
    failed step's title gets the [" (Failed)"] suffix. *)
Theorem query_run_no_error_entry st evs st' :
  Forall (fun m => title m <> "Error") (messages st) ->
  query_run st evs = Some st' ->
  Forall (fun m => title m <> "Error") (messages st').
Proof.
  revert st. induction evs as [|[d n] evs IH]; intros st Hall H.
  - injection H as <-. exact Hall.
  - simpl in H. destruct (query_on_message st d n) as [st1|] eqn:E; [|discriminate].
    apply (IH st1); [|exact H].
    unfold query_on_message in E.
    destruct (String.eqb (ftitle d) "Debug"); [injection E as <-; exact Hall|].
    destruct (String.eqb (ftitle d) "Session"); [injection E as <-; exact Hall|].
    unfold apply_fold in E. destruct (fold_step (messages st) d n) as [[ms cl]|] eqn:F;
      [|discriminate].
    injection E as <-.
    assert (messages (if cl then close_stream (set_messages st ms) else set_messages st ms) = ms)
      as -> by (destruct cl; reflexivity).
    exact (fold_step_no_error_title _ _ _ _ _ Hall F).
Qed.

Lemma query_run_no_error_entry_witness :
  exists st',
    query_run prompt_state
      [(mkForgeResponse "Error" "boom", 1); (mkForgeResponse "Error" "Error", 2)] = Some st'
    /\ Forall (fun m => title m <> "Error") (messages st').
Proof.
  eexists. split; [reflexivity|].
  apply (query_run_no_error_entry prompt_state
           [(mkForgeResponse "Error" "boom", 1); (mkForgeResponse "Error" "Error", 2)]).
  - repeat constructor. simpl. discriminate.
  - reflexivity.
Defined.

Lemma failed_title_includes (s : string) : includes (s ++ " (Failed)") "Failed" = true.
Proof. apply includes_append_r. reflexivity. Qed.

(** In the generation stream, ["Debug"] and ["Session"] events change
    neither the transcript, nor the transaction queue, nor the stream. *)
Theorem query_control_events_invisible st d n st' :
  ftitle d = "Debug" \/ ftitle d = "Session" ->
  query_on_message st d n = Some st' ->
  messages st' = messages st /\ transactions st' = transactions st
  /\ txCount st' = txCount st /\ closed st' = closed st.
Proof.
  intros Ht. unfold query_on_message.
  destruct Ht as [-> | ->]; simpl; intros H; injection H as <-; repeat split.
Qed.

Lemma query_control_events_invisible_witness :
  exists st',
    query_on_message swap_state (mkForgeResponse "Session" "abc123") 2 = Some st'
    /\ messages st' = messages swap_state /\ transactions st' = transactions swap_state
    /\ txCount st' = txCount swap_state /\ closed st' = closed swap_state.
Proof.
  eexists. split; [reflexivity|].
  apply (query_control_events_invisible swap_state (mkForgeResponse "Session" "abc123") 2);
    [right; reflexivity|reflexivity].
Defined.

(** The fix stream never changes the retained session identifier; it has
    no ["Session"] branch, so a ["Session"] event is folded into the
    transcript like any step, starting an entry titled ["Session"]. *)
Theorem fix_stream_session parse_plan st d n :
  (forall st', fix_on_message parse_plan st d n = Some st' -> tempDir st' = tempDir st)
  /\ (ftitle d = "Session" ->
      (forall lm, last_opt (messages st) = Some lm -> title lm <> "Session") ->
      fix_on_message parse_plan st d n =
        Some (set_messages st (messages st ++ [mkMessage Ai "Session" (foutput d) n])%list)).
Proof.
  split.
  - intros st'. unfold fix_on_message.
    destruct (String.eqb (ftitle d) "Debug"); [intros H; injection H as <-; reflexivity|].
    destruct (String.eqb (ftitle d) "Simulating Transactions" && includes (foutput d) "[{").
    + destruct (parse_plan (foutput d)) as [plan|]; simpl; [|discriminate].
      intros H. apply apply_fold_tempDir in H. exact H.
    + apply apply_fold_tempDir.
  - intros Ht Hl. unfold fix_on_message, apply_fold, fold_step. rewrite Ht. simpl.
    destruct (last_opt (messages st)) as [lm|] eqn:El; simpl.
    + rewrite (eqb_false _ _ (Hl lm eq_refl)), andb_false_r. reflexivity.
    + reflexivity.
Qed.

Lemma fix_stream_session_witness :
  fix_on_message parse_sample swap_state (mkForgeResponse "Session" "abc123") 2 =
    Some (set_messages swap_state
            (messages swap_state ++ [mkMessage Ai "Session" "abc123" 2])%list).
Proof.
  apply (proj2 (fix_stream_session parse_sample swap_state (mkForgeResponse "Session" "abc123") 2)).
  - reflexivity.
  - intros lm E. simpl in E. injection E as <-. discriminate.
Defined.

(** A ["Simulating Transactions"] event of the fix stream whose output
    contains ["[{"] replaces the transaction queue with the parsed plan,
    whatever the queue held; when the text does not parse, the handler
    throws and nothing is updated. *)
Theorem fix_plan_replaces parse_plan st o n :
  includes o "[{" = true ->
  match parse_plan o with
  | Some plan =>
      exists st', fix_on_message parse_plan st (mkForgeResponse "Simulating Transactions" o) n = Some st'
                  /\ transactions st' = plan
  | None => fix_on_message parse_plan st (mkForgeResponse "Simulating Transactions" o) n = None
  end.
Proof.
  intros Hi. unfold fix_on_message. simpl. rewrite Hi. simpl.
  destruct (parse_plan o) as [plan|]; simpl; [|reflexivity].
  destruct (apply_fold (set_transactions st plan) (mkForgeResponse "Simulating Transactions" o) n)
    as [st'|] eqn:E.
  - exists st'. split; [reflexivity|]. apply apply_fold_transactions in E. exact E.
  - exfalso. unfold apply_fold in E.
    destruct (fold_step (messages (set_transactions st plan))
                (mkForgeResponse "Simulating Transactions" o) n) as [[ms cl]|] eqn:F;
      [discriminate|].
    apply fold_step_none_cases in F. destruct F as [_ F]. discriminate.
Qed.

Lemma fix_plan_replaces_witness :
  exists st',
    fix_on_message parse_sample (set_transactions prompt_state [tx_swap])
      (mkForgeResponse "Simulating Transactions" plan_json) 1 = Some st'
    /\ transactions st' = [tx_approve].
Proof.
  exact (fix_plan_replaces parse_sample (set_transactions prompt_state [tx_swap]) plan_json 1
           eq_refl).
Defined.

(** A transport error with [eventPhase] [0] closes the stream and appends
    a ["Connection Error"] entry, after which no fix can be requested (its
    title is never marked failed); with any other [eventPhase] nothing
    changes. *)
Theorem connection_error_not_fixable st now err k :
  closed (query_on_error st 0 now) = true
  /\ last_opt (messages (query_on_error st 0 now))
     = Some (mkMessage Ai "Connection Error" "Lost connection to server. Please try again." now)
  /\ getFix (query_on_error st 0 now) err = None
  /\ query_on_error st (S k) now = st.
Proof.
  unfold query_on_error, getFix. simpl. rewrite last_opt_snoc. repeat split.
Qed.

(** An ["Error"] event folded into a non-empty transcript (outside the
    idempotence guard's case) closes the stream and leaves the last entry
    marked failed, so the fix request is then available and passes its
    error text and the retained session identifier. *)
Theorem error_enables_fix st ms lm o n err :
  messages st = (ms ++ [lm])%list ->
  ~ (title lm = "Error" /\ content lm = o) ->
  exists st',
    query_on_message st (mkForgeResponse "Error" o) n = Some st'
    /\ closed st' = true
    /\ getFix st' err = Some (mkFixParams err "http://ethereumreth:8545" (or_empty (tempDir st))).
Proof.
  intros Hm Hg.
  unfold query_on_message, apply_fold, fold_step. simpl.
  rewrite Hm, last_opt_snoc. simpl.
  assert (G : (String.eqb (content lm) o && String.eqb (title lm) "Error") = false).
  { destruct (String.eqb_spec (content lm) o);
      destruct (String.eqb_spec (title lm) "Error"); tauto. }
  rewrite G, andb_false_r, replace_last_snoc.
  eexists. split; [reflexivity|]. split; [reflexivity|].
  unfold getFix. simpl. rewrite last_opt_snoc. simpl.
  rewrite failed_title_includes. reflexivity.
Qed.

Lemma error_enables_fix_witness :
  exists st',
    query_on_message swap_state (mkForgeResponse "Error" "boom") 2 = Some st'
    /\ closed st' = true
    /\ getFix st' "xboom" = Some (mkFixParams "xboom" "http://ethereumreth:8545" "").
Proof.
  apply (error_enables_fix swap_state [mkMessage User "Prompt" "swap 1 ETH for USDC" 0]
           (mkMessage Ai "swap" "x" 1) "boom" 2 "xboom").
  - reflexivity.
  - simpl. intros [H _]. discriminate.
Defined.





(** When every wallet submission succeeds, the effect consumes the whole
    queue: it ends empty, the counter grows by the queue's length, and two
    entries (the pending one and the confirmation) are appended per
    transaction; outcomes beyond the queue are never used. *)
Theorem transactions_all_sent st outs :
  (forall o, In o outs -> exists h, snd o = Sent h) ->
  length (transactions st) <= length outs ->
  exists st',
    transaction_run st outs = Some st'
    /\ transactions st' = []
    /\ txCount st' = txCount st + length (transactions st)
    /\ length (messages st') = length (messages st) + 2 * length (transactions st).
Proof.
  remember (transactions st) as txs eqn:Htxs.
  revert st outs Htxs. induction txs as [|tx txs IH]; intros st outs Htxs Hs Hl.
  - exists st. rewrite <- Htxs. simpl. split; [|split; [reflexivity|split; lia]].
    destruct outs as [|[[n n'] r] outs]; simpl; [reflexivity|].
    unfold transaction_effect. rewrite <- Htxs. reflexivity.
  - destruct outs as [|[[n n'] r] outs]; [simpl in Hl; lia|].
    destruct (Hs (n, n', r) (or_introl eq_refl)) as [h Hr]. simpl in Hr. subst r.
    destruct (IH (set_txCount
                    (set_transactions
                       (set_messages st
                          (messages st ++ [pending_message tx (txCount st) (length (transactions st)) n]
                           ++ [mkMessage Ai "Transaction" ("Transaction sent! Hash: " ++ h) n'])%list)
                       txs)
                    (S (txCount st))) outs)
      as [st' [Hrun [Hq [Hc Hm]]]].
    + reflexivity.
    + intros o Ho. apply Hs. right. exact Ho.
    + simpl in Hl. lia.
    + exists st'. simpl. rewrite <- Htxs. unfold transaction_effect. rewrite <- Htxs.
      unfold handleTransaction. rewrite <- Htxs in Hrun |- *. simpl in Hrun |- *.
      rewrite <- Htxs. simpl tl. rewrite <- app_assoc. split; [exact Hrun|].
      simpl in Hc, Hm. rewrite !length_app in Hm. simpl in Hm.
      split; [exact Hq|]. split; lia.
Qed.

Lemma transactions_all_sent_witness :
  exists st',
    transaction_run (set_transactions prompt_state [tx_approve; tx_swap])
      [(1, 2, Sent "0x1f"); (3, 4, Sent "0x2e"); (5, 6, Sent "0x3d")] = Some st'
    /\ transactions st' = [] /\ txCount st' = 0 + 2 /\ length (messages st') = 1 + 2 * 2.
Proof.
  apply (transactions_all_sent (set_transactions prompt_state [tx_approve; tx_swap])).
  - intros o Ho. simpl in Ho.
    destruct Ho as [<- | [<- | [<- | []]]]; eexists; reflexivity.
  - simpl. lia.
Defined.



(** ** Rendering and the fix button *)

Lemma render_from_nth len k ms i :
  nth_error (render_from len k ms) i = option_map (entry_view len (k + i)) (nth_error ms i).
Proof.
  revert k i. induction ms as [|m ms IH]; intros k i; destruct i as [|i]; simpl;
    try reflexivity.
  - rewrite Nat.add_0_r. reflexivity.
  - rewrite IH, Nat.add_succ_r. reflexivity.
Qed.

(** Every accordion item drawn stands for the AI message at the same
    position, with its title and content; it has the failure icon exactly
    when it has a "Get Fix" button, that is when its title contains
    ["Failed"]; and the spinner is drawn only on the last message. *)
Theorem render_entry ms i t b c fb :
  nth_error (render ms) i = Some (StepItem t b c fb) ->
  exists m, nth_error ms i = Some m /\ role m = Ai /\ t = title m /\ c = content m
    /\ fb = includes (title m) "Failed"
    /\ (b = FailedIcon <-> fb = true)
    /\ (b = SpinnerIcon -> S i = length ms).
Proof.
  unfold render. rewrite render_from_nth. simpl.
  destruct (nth_error ms i) as [m|] eqn:E; simpl; [|discriminate].
  assert (Hi : i < length ms) by (apply nth_error_Some; rewrite E; discriminate).
  unfold entry_view. destruct (role m) eqn:R; [discriminate|].
  intros H. injection H as Ht Hb Hc Hf. subst t b c fb.
  exists m. split; [reflexivity|]. split; [exact R|].
  split; [reflexivity|]. split; [reflexivity|]. split; [reflexivity|].
  destruct (includes (title m) "Failed");
    destruct (Nat.eqb_spec i (length ms - 1));
    (split; [split; intros; first [reflexivity | discriminate] |
             intros; first [lia | discriminate]]).
Qed.

Lemma render_entry_witness :
  exists m, nth_error (messages swap_state) 1 = Some m /\ role m = Ai /\ "swap" = title m
    /\ "x" = content m /\ false = includes (title m) "Failed"
    /\ (SpinnerIcon = FailedIcon <-> false = true)
    /\ (SpinnerIcon = SpinnerIcon -> 2 = length (messages swap_state)).
Proof.
  apply (render_entry (messages swap_state) 1 "swap" SpinnerIcon "x" false).
  reflexivity.
Defined.

(** The "Get Fix" button of the last message always requests a fix: the
    fix stream is opened with that message's content as the error, the
    fixed RPC URL and the retained session identifier. *)
Theorem fix_button_request st i t b c :
  nth_error (render (messages st)) i = Some (StepItem t b c true) ->
  S i = length (messages st) ->
  getFix st c = Some (mkFixParams c "http://ethereumreth:8545" (or_empty (tempDir st))).
Proof.
  intros H Hlen. unfold render in H. rewrite render_from_nth in H.
  destruct (nth_error (messages st) i) as [m|] eqn:E; [|discriminate].
  simpl in H. unfold entry_view in H. destruct (role m); [discriminate|].
  injection H as _ _ _ Hf.
  apply nth_error_split in E. destruct E as [l1 [l2 [El Hl1]]].
  rewrite El, length_app in Hlen. simpl in Hlen.
  destruct l2 as [|m2 l2]; [|simpl in Hlen; lia].
  unfold getFix. rewrite El, last_opt_snoc, Hf. reflexivity.
Qed.

Lemma fix_button_request_witness :
  getFix failed_state "xboom" = Some (mkFixParams "xboom" "http://ethereumreth:8545" "").
Proof.
  apply (fix_button_request failed_state 1 "swap (Failed)" FailedIcon "xboom").
  - reflexivity.
  - reflexivity.
Defined.

(** ** Retry policy, stream guards and what the handlers leave alone *)

(** A negative [maxRetries] is truthy but no count is below it: the first
    failure is reported at once and no reconnection is scheduled. *)
Theorem retry_negative_cap fuel m :
  (m < 0)%Z -> failing_run (S fuel) (Some m) 0 = [ReportError].
Proof.
  intros Hm. cbn [failing_run]. unfold on_error, falsy_num.
  rewrite (proj2 (Z.eqb_neq m 0)) by lia.
  rewrite (proj2 (Z.ltb_ge 0 m)) by lia.
  reflexivity.
Qed.

Lemma retry_negative_cap_witness : failing_run 3 (Some (-1)%Z) 0 = [ReportError].
Proof. apply (retry_negative_cap 2 (-1)%Z). lia. Defined.

(** The generation stream never changes the transaction queue nor the
    transaction counter, whatever events it delivers. *)
Theorem query_run_keeps_plan st evs st' :
  query_run st evs = Some st' ->
  transactions st' = transactions st /\ txCount st' = txCount st.
Proof.
  revert st. induction evs as [|[d n] evs IH]; intros st H; simpl in H.
  - injection H as <-. split; reflexivity.
  - destruct (query_on_message st d n) as [st1|] eqn:E; [|discriminate].
    destruct (IH st1 H) as [H1 H2].
    assert (transactions st1 = transactions st /\ txCount st1 = txCount st) as [H3 H4].
    { unfold query_on_message, apply_fold in E.
      destruct (String.eqb (ftitle d) "Debug"); [injection E as <-; split; reflexivity|].
      destruct (String.eqb (ftitle d) "Session"); [injection E as <-; split; reflexivity|].
      destruct (fold_step (messages st) d n) as [[ms [|]]|];
        [injection E as <-; split; reflexivity|injection E as <-; split; reflexivity|discriminate]. }
    split; congruence.
Qed.

Lemma query_run_keeps_plan_witness :
  exists st',
    query_run (set_transactions prompt_state [tx_swap])
      [(mkForgeResponse "Simulating Transactions" plan_json, 1)] = Some st'
    /\ transactions st' = [tx_swap] /\ txCount st' = 0.
Proof.
  eexists. split; [reflexivity|].
  apply (query_run_keeps_plan (set_transactions prompt_state [tx_swap])
           [(mkForgeResponse "Simulating Transactions" plan_json, 1)]).
  reflexivity.
Defined.

(** A ["Simulating Transactions"] event of the fix stream whose output
    does not contain ["[{"] is never parsed: the handler does not throw,
    whatever the transcript, its result does not depend on the parser,
    and the transaction queue is left as it was. *)
Theorem fix_plan_needs_bracket parse_plan parse_plan' st o n :
  includes o "[{" = false ->
  exists st',
    fix_on_message parse_plan st (mkForgeResponse "Simulating Transactions" o) n = Some st'
    /\ fix_on_message parse_plan' st (mkForgeResponse "Simulating Transactions" o) n = Some st'
    /\ transactions st' = transactions st.
Proof.
  intros H. unfold fix_on_message. simpl. rewrite H. simpl.
  destruct (apply_fold st (mkForgeResponse "Simulating Transactions" o) n) as [st'|] eqn:E.
  - exists st'. split; [reflexivity|]. split; [reflexivity|].
    exact (apply_fold_transactions _ _ _ _ E).
  - exfalso. unfold apply_fold in E.
    destruct (fold_step (messages st) (mkForgeResponse "Simulating Transactions" o) n)
      as [[ms cl]|] eqn:F; [discriminate|].
    apply fold_step_none_cases in F. destruct F as [_ F]. discriminate.
Qed.

Lemma fix_plan_needs_bracket_witness :
  exists st',
    fix_on_message parse_sample (set_transactions prompt_state [tx_swap])
      (mkForgeResponse "Simulating Transactions" "[]") 2 = Some st'
    /\ fix_on_message (fun _ => Some []) (set_transactions prompt_state [tx_swap])
         (mkForgeResponse "Simulating Transactions" "[]") 2 = Some st'
    /\ transactions st' = [tx_swap].
Proof.
  exact (fix_plan_needs_bracket parse_sample (fun _ => Some [])
           (set_transactions prompt_state [tx_swap]) "[]" 2 eq_refl).
Defined.

(** The transaction effect only appends to the transcript: every entry
    present before it ran is kept, and it never touches the session
    identifier nor the stream's closed flag. *)
Theorem transaction_run_appends st outs st' :
  transaction_run st outs = Some st' ->
  tempDir st' = tempDir st /\ closed st' = closed st
  /\ exists Q, messages st' = (messages st ++ Q)%list.
Proof.
  revert st. induction outs as [|[[n n'] r] outs IH]; intros st H; simpl in H.
  - injection H as <-. split; [reflexivity|]. split; [reflexivity|].
    exists []. rewrite app_nil_r. reflexivity.
  - destruct (transactions st) as [|tx rest] eqn:Et.
    + injection H as <-. split; [reflexivity|]. split; [reflexivity|].
      exists []. rewrite app_nil_r. reflexivity.
    + destruct (transaction_effect st n n' r) as [st1|] eqn:E; [|discriminate].
      assert (Step : tempDir st1 = tempDir st /\ closed st1 = closed st
                     /\ exists Q, messages st1 = (messages st ++ Q)%list).
      { unfold transaction_effect in E. rewrite Et in E. unfold handleTransaction in E.
        destruct r as [h|m].
        - injection E as <-. cbn [messages set_messages set_transactions set_txCount
                                  tempDir closed].
          split; [reflexivity|]. split; [reflexivity|].
          eexists. rewrite <- app_assoc. reflexivity.
        - cbn [messages set_messages] in E. rewrite last_opt_snoc in E.
          injection E as <-. cbn [messages set_messages tempDir closed].
          split; [reflexivity|]. split; [reflexivity|].
          rewrite replace_last_snoc. eexists. reflexivity. }
      destruct Step as [T1 [C1 [Q1 M1]]].
      destruct r as [h|m].
      * destruct (IH st1 H) as [T2 [C2 [Q2 M2]]].
        split; [congruence|]. split; [congruence|].
        exists (Q1 ++ Q2)%list. rewrite M2, M1, app_assoc. reflexivity.
      * injection H as <-. split; [exact T1|]. split; [exact C1|]. exists Q1. exact M1.
Qed.

Lemma transaction_run_appends_witness :
  exists st',
    transaction_run (set_transactions prompt_state [tx_approve; tx_swap])
      [(1, 2, Sent "0x1f"); (3, 4, Rejected "User rejected the request.")] = Some st'
    /\ tempDir st' = None /\ closed st' = false
    /\ exists Q, messages st' = (messages prompt_state ++ Q)%list.
Proof.
  eexists. split; [reflexivity|].
  apply (transaction_run_appends (set_transactions prompt_state [tx_approve; tx_swap])
           [(1, 2, Sent "0x1f"); (3, 4, Rejected "User rejected the request.")]).
  reflexivity.
Defined.
